(** * PYBV3 board descriptor (stmhal/boards/PYBV3/mpconfigboard.h)

    A shallow embedding of the board configuration header of the PYBv3 board:
    the feature flags, the user-switch binding, the LED table with the two
    LED macros, and the SD-card-detect binding, together with the small part
    of the STM32F4 GPIO block the two LED macros write to. *)

From Stdlib Require Import ZArith Bool Lia.
From stdpp Require Import base decidable functions list strings.

Local Open Scope Z_scope.

(** ** The GPIO block the header refers to *)

Module HAL.

(** Modelled from the spec: the GPIO ports of the MCU ("port + number"
    pin references); the port register blocks themselves are declared by
    the vendor headers, which this header only refers to. *)
Inductive pin_gpio_t : Set :=
  GPIOA | GPIOB | GPIOC | GPIOD | GPIOE | GPIOF | GPIOG | GPIOH | GPIOI.

(** Modelled from the spec: the register fields of one port; [BSRRL] and
    [BSRRH] are the two write-only halves of the split set/reset register
    ("split set-register vs clear-register discipline"). *)
Inductive gpio_field : Set :=
  MODER | OTYPER | OSPEEDR | PUPDR | IDR | ODR | BSRRL | BSRRH | LCKR
| AFR0 | AFR1.

(** The registers of a port that hold state.  The input register and the
    two set/reset halves hold none: the level of an output pin is its bit
    of the output data register. *)
Record GPIO_TypeDef : Set := mkGPIO {
  r_MODER : Z; r_OTYPER : Z; r_OSPEEDR : Z; r_PUPDR : Z;
  r_ODR : Z; r_LCKR : Z; r_AFR0 : Z; r_AFR1 : Z }.

Definition set_ODR (v : Z) (r : GPIO_TypeDef) : GPIO_TypeDef :=
  mkGPIO (r_MODER r) (r_OTYPER r) (r_OSPEEDR r) (r_PUPDR r)
         v (r_LCKR r) (r_AFR0 r) (r_AFR1 r).

Definition uint16 (v : Z) : Z := v mod 2 ^ 16.
Definition uint32 (v : Z) : Z := v mod 2 ^ 32.

(** Modelled from the spec: what a store to a field of a port does.  A
    store to the set half [BSRRL] sets the bits of the output data register
    that are 1 in the stored half-word, a store to the reset half [BSRRH]
    clears them; bits that are 0 in the stored value have no effect
    ("each device's assert/deassert touches only its own pin's bit").
    The plain registers take the stored word; [IDR] is read-only. *)
Definition port_store (f : gpio_field) (v : Z) (r : GPIO_TypeDef)
  : GPIO_TypeDef :=
  match f with
  | BSRRL => set_ODR (Z.lor (r_ODR r) (uint16 v)) r
  | BSRRH => set_ODR (Z.ldiff (r_ODR r) (uint16 v)) r
  | ODR => set_ODR (uint32 v) r
  | MODER => mkGPIO (uint32 v) (r_OTYPER r) (r_OSPEEDR r) (r_PUPDR r)
                    (r_ODR r) (r_LCKR r) (r_AFR0 r) (r_AFR1 r)
  | OTYPER => mkGPIO (r_MODER r) (uint32 v) (r_OSPEEDR r) (r_PUPDR r)
                     (r_ODR r) (r_LCKR r) (r_AFR0 r) (r_AFR1 r)
  | OSPEEDR => mkGPIO (r_MODER r) (r_OTYPER r) (uint32 v) (r_PUPDR r)
                      (r_ODR r) (r_LCKR r) (r_AFR0 r) (r_AFR1 r)
  | PUPDR => mkGPIO (r_MODER r) (r_OTYPER r) (r_OSPEEDR r) (uint32 v)
                    (r_ODR r) (r_LCKR r) (r_AFR0 r) (r_AFR1 r)
  | LCKR => mkGPIO (r_MODER r) (r_OTYPER r) (r_OSPEEDR r) (r_PUPDR r)
                   (r_ODR r) (uint32 v) (r_AFR0 r) (r_AFR1 r)
  | AFR0 => mkGPIO (r_MODER r) (r_OTYPER r) (r_OSPEEDR r) (r_PUPDR r)
                   (r_ODR r) (r_LCKR r) (uint32 v) (r_AFR1 r)
  | AFR1 => mkGPIO (r_MODER r) (r_OTYPER r) (r_OSPEEDR r) (r_PUPDR r)
                   (r_ODR r) (r_LCKR r) (r_AFR0 r) (uint32 v)
  | IDR => r
  end.

(** What goes over the bus: a load from or a store to a register field. *)
Inductive bus_event : Set :=
| BusRead (g : pin_gpio_t) (f : gpio_field)
| BusWrite (g : pin_gpio_t) (f : gpio_field) (v : Z).

Definition is_write (e : bus_event) : bool :=
  match e with BusWrite _ _ _ => true | BusRead _ _ => false end.

(** The state of all ports. *)
Abbreviation ports := (pin_gpio_t → GPIO_TypeDef).

#[global] Instance pin_gpio_eq_dec : EqDecision pin_gpio_t.
Proof. solve_decision. Defined.
#[global] Instance gpio_field_eq_dec : EqDecision gpio_field.
Proof. solve_decision. Defined.
#[global] Instance bus_event_eq_dec : EqDecision bus_event.
Proof. solve_decision. Defined.

(** Register code runs in a state monad over the ports that also logs the
    bus accesses it makes, oldest first. *)
Definition M (A : Type) : Type := ports → A * ports * list bus_event.

#[global] Instance M_ret : MRet M := λ A a s, (a, s, []).
#[global] Instance M_bind : MBind M := λ A B k c s,
  let '(a, s1, t1) := c s in
  let '(b, s2, t2) := k a s1 in
  (b, s2, t1 ++ t2).

(** [g->f = v]: one store.  The value of the assignment is the stored
    value. *)
Definition store (g : pin_gpio_t) (f : gpio_field) (v : Z) : M Z :=
  λ s, (v, <[g := port_store f v (s g)]> s, [BusWrite g f v]).

Definition result {A} (x : A * ports * list bus_event) : A := x.1.1.
Definition state_of {A} (x : A * ports * list bus_event) : ports := x.1.2.
Definition events_of {A} (x : A * ports * list bus_event) : list bus_event
  := x.2.

(** Modelled from the spec: the raw level constants of a digital pin
    ("raw level 1" is the set level). *)
Definition GPIO_PIN_RESET : Z := 0.
Definition GPIO_PIN_SET : Z := 1.

(** Modelled from the spec: the pull-resistor configurations
    (none/up/down), the interrupt trigger edges, the output modes. *)
Inductive gpio_pull : Set := GPIO_NOPULL | GPIO_PULLUP | GPIO_PULLDOWN.
Inductive gpio_exti_mode : Set :=
  GPIO_MODE_IT_RISING | GPIO_MODE_IT_FALLING | GPIO_MODE_IT_RISING_FALLING.
Inductive gpio_otype : Set := GPIO_MODE_OUTPUT_PP | GPIO_MODE_OUTPUT_OD.

(** All registers zero. *)
Definition gpio_zero : ports := λ _, mkGPIO 0 0 0 0 0 0 0 0.

End HAL.
Import HAL.

(** ** Pin objects *)

(** Modelled from the spec: a pin object identifies one physical pin by its
    port and its number within the port; [pin_mask] is the pin's bit in the
    per-port registers.  The pin objects named by the header ([pin_A8], ...)
    are generated elsewhere in the build, each from the port letter and
    the number in its name. *)
Record pin_obj_t : Set := mkPin {
  gpio : pin_gpio_t;
  pin : Z;
  pin_mask : Z }.

#[global] Instance pin_obj_eq_dec : EqDecision pin_obj_t.
Proof. solve_decision. Defined.

Definition PIN (p_port : pin_gpio_t) (p_pin : Z) : pin_obj_t :=
  mkPin p_port p_pin (Z.shiftl 1 (Z.land p_pin 15)).

Definition pin_A8 : pin_obj_t := PIN GPIOA 8.
Definition pin_A10 : pin_obj_t := PIN GPIOA 10.
Definition pin_A13 : pin_obj_t := PIN GPIOA 13.
Definition pin_C4 : pin_obj_t := PIN GPIOC 4.
Definition pin_C5 : pin_obj_t := PIN GPIOC 5.
Definition pin_C13 : pin_obj_t := PIN GPIOC 13.

(** A pin object is well formed when its number is one of the sixteen of a
    port and its mask is that bit. *)
Definition pin_wf (p : pin_obj_t) : Prop :=
  0 ≤ pin p < 16 ∧ pin_mask p = 2 ^ pin p.

(** The raw level of a pin driven as an output: its bit of the output data
    register of its port, as [GPIO_PIN_RESET] or [GPIO_PIN_SET]. *)
Definition pin_level (s : ports) (p : pin_obj_t) : Z :=
  Z.b2z (Z.testbit (r_ODR (s (gpio p))) (pin p)).

(** ** The header *)

Definition MICROPY_HW_BOARD_NAME : string := "PYBv3".
Definition MICROPY_HW_MCU_NAME : string := "STM32F405RG".

Definition MICROPY_HW_HAS_SWITCH : Z := 1.
Definition MICROPY_HW_HAS_SDCARD : Z := 1.
Definition MICROPY_HW_HAS_MMA7660 : Z := 1.
Definition MICROPY_HW_HAS_LIS3DSH : Z := 0.
Definition MICROPY_HW_HAS_LCD : Z := 0.
Definition MICROPY_HW_ENABLE_RNG : Z := 1.
Definition MICROPY_HW_ENABLE_RTC : Z := 1.
Definition MICROPY_HW_ENABLE_TIMER : Z := 1.
Definition MICROPY_HW_ENABLE_SERVO : Z := 1.
Definition MICROPY_HW_ENABLE_DAC : Z := 1.
Definition MICROPY_HW_ENABLE_I2C1 : Z := 1.
Definition MICROPY_HW_ENABLE_SPI1 : Z := 1.
Definition MICROPY_HW_ENABLE_SPI3 : Z := 0.
Definition MICROPY_HW_ENABLE_CC3K : Z := 0.

(** User switch. *)
Definition MICROPY_HW_USRSW_PIN : pin_obj_t := pin_A13.
Definition MICROPY_HW_USRSW_PULL : gpio_pull := GPIO_PULLUP.
Definition MICROPY_HW_USRSW_EXTI_MODE : gpio_exti_mode := GPIO_MODE_IT_FALLING.
Definition MICROPY_HW_USRSW_PRESSED : Z := 0.

(** LEDs: the four mandatory role defines. *)
Definition PYB_LED_STORAGE1 : Z := 1.
Definition PYB_LED_STORAGE2 : Z := 2.
Definition PYB_LED_ERROR1 : Z := 1.
Definition PYB_LED_ERROR2 : Z := 2.

(** An entry of the LED table: [{{&pyb_led_type}, nb_led, pin mapping}]. *)
Inductive mp_obj_type_t : Set := pyb_led_type.
Record mp_obj_base_t : Set := mkBase { type : mp_obj_type_t }.
Record pyb_led_obj_t : Set := mkLed {
  base : mp_obj_base_t;
  led_id : Z;
  led_pin : pin_obj_t }.

#[global] Instance mp_obj_type_eq_dec : EqDecision mp_obj_type_t.
Proof. solve_decision. Defined.
#[global] Instance mp_obj_base_eq_dec : EqDecision mp_obj_base_t.
Proof. solve_decision. Defined.
#[global] Instance pyb_led_obj_eq_dec : EqDecision pyb_led_obj_t.
Proof. solve_decision. Defined.

Definition MICROPY_HW_LED_MAPPING : list pyb_led_obj_t :=
  [ mkLed (mkBase pyb_led_type) 1 pin_A8    (* red *)
  ; mkLed (mkBase pyb_led_type) 2 pin_A10   (* red *)
  ; mkLed (mkBase pyb_led_type) 3 pin_C4    (* green *)
  ; mkLed (mkBase pyb_led_type) 3 pin_C5    (* green *) ].

Definition MICROPY_HW_LED_OTYPE : gpio_otype := GPIO_MODE_OUTPUT_PP.

(** [(pin->gpio->BSRRH = pin->pin_mask)] *)
Definition MICROPY_HW_LED_ON (p : pin_obj_t) : M Z :=
  store (gpio p) BSRRH (pin_mask p).

(** [(pin->gpio->BSRRL = pin->pin_mask)] *)
Definition MICROPY_HW_LED_OFF (p : pin_obj_t) : M Z :=
  store (gpio p) BSRRL (pin_mask p).

(** SD card detect switch. *)
Definition MICROPY_HW_SDCARD_DETECT_PIN : pin_obj_t := pin_C13.
Definition MICROPY_HW_SDCARD_DETECT_PULL : gpio_pull := GPIO_PULLDOWN.
Definition MICROPY_HW_SDCARD_DETECT_PRESENT : Z := GPIO_PIN_SET.

(** ** The consumers of the bindings *)

(** Number of entries of the LED table. *)
Definition NUM_LEDS : Z := Z.of_nat (length MICROPY_HW_LED_MAPPING).

(** The four mandatory roles, in the order the header defines them. *)
Definition mandatory_roles : list Z :=
  [PYB_LED_STORAGE1; PYB_LED_STORAGE2; PYB_LED_ERROR1; PYB_LED_ERROR2].

(** Modelled from the spec: a role's logical index selects an entry of the
    ordered LED sequence, counted from 1 in presentation order; an index
    outside the sequence selects nothing.  (The LED driver that does the
    selection is outside this header.) *)
Definition led_entry (led : Z) : option pyb_led_obj_t :=
  if bool_decide (1 ≤ led ≤ NUM_LEDS)
  then MICROPY_HW_LED_MAPPING !! Z.to_nat (led - 1)
  else None.

(** The entries of the table that carry a given logical index. *)
Definition led_with_id (i : Z) : list pyb_led_obj_t :=
  filter (λ e, led_id e = i) MICROPY_HW_LED_MAPPING.

(** Modelled from the spec: "calls assert/deassert by logical role name":
    the selected entry's pin is handed to the on or the off macro; nothing
    is done for an index that selects no entry. *)
Definition led_state (led : Z) (state : bool) : M unit :=
  match led_entry led with
  | None => mret ()
  | Some e =>
      if state then MICROPY_HW_LED_ON (led_pin e) ;; mret ()
      else MICROPY_HW_LED_OFF (led_pin e) ;; mret ()
  end.

(** Modelled from the spec: the pressed-predicate of the switch binding,
    "is the logical condition currently true, given a raw pin level": the
    sampled level is compared with the header's pressed level.  (The switch
    driver is outside this header.) *)
Definition switch_pressed (level : Z) : bool :=
  bool_decide (level = MICROPY_HW_USRSW_PRESSED).

(** Modelled from the spec: the present-predicate of the SD-detect binding,
    the sampled level compared with the header's present level.  (The SD
    card driver is outside this header.) *)
Definition sdcard_present (level : Z) : bool :=
  bool_decide (level = MICROPY_HW_SDCARD_DETECT_PRESENT).

(** The pins the board binds, in the order of the header: the switch, the
    LEDs, the SD-card detect line. *)
Definition board_pins : list pin_obj_t :=
  MICROPY_HW_USRSW_PIN :: (led_pin <$> MICROPY_HW_LED_MAPPING)
    ++ [MICROPY_HW_SDCARD_DETECT_PIN].

(** Sequences of the two LED operations on one pin. *)
Inductive led_op : Set := Assert | Deassert.

Definition led_do (op : led_op) (p : pin_obj_t) : M Z :=
  match op with
  | Assert => MICROPY_HW_LED_ON p
  | Deassert => MICROPY_HW_LED_OFF p
  end.

Fixpoint led_seq (ops : list led_op) (p : pin_obj_t) : M unit :=
  match ops with
  | [] => mret ()
  | op :: rest => led_do op p ;; led_seq rest p
  end.

(** [same_but_pin p s s']: the two port states differ at most in the bit of
    pin [p] in the output data register of its port. *)
Definition same_but_pin (p : pin_obj_t) (s s' : ports) : Prop :=
  (∀ g, g ≠ gpio p → s' g = s g)
  ∧ set_ODR (r_ODR (s (gpio p))) (s' (gpio p)) = s (gpio p)
  ∧ (∀ j, j ≠ pin p →
       Z.testbit (r_ODR (s' (gpio p))) j = Z.testbit (r_ODR (s (gpio p))) j).

(** The register half an operation stores to, and the level it leaves on
    the pin (read off the two macros). *)
Definition op_field (op : led_op) : gpio_field :=
  match op with Assert => BSRRH | Deassert => BSRRL end.



(** The (port, number) pair that identifies the physical pin. *)
Definition pin_id (p : pin_obj_t) : pin_gpio_t * Z := (gpio p, pin p).

(** Modelled from the spec: the level an input pin rests at when nothing
    drives it, by its pull configuration ("a pull-up with an active-low
    convention implies the switch shorts to ground when engaged"). *)
Definition pull_idle_level (pull : gpio_pull) : option Z :=
  match pull with
  | GPIO_NOPULL => None
  | GPIO_PULLUP => Some GPIO_PIN_SET
  | GPIO_PULLDOWN => Some GPIO_PIN_RESET
  end.

(** Modelled from the spec: whether a change of the sampled level from
    [before] to [after] is an edge the interrupt trigger is armed on
    ("interrupt trigger edge (rising/falling/both)"). *)
Definition exti_fires (mode : gpio_exti_mode) (before after : Z) : bool :=
  match mode with
  | GPIO_MODE_IT_RISING => bool_decide (before < after)
  | GPIO_MODE_IT_FALLING => bool_decide (after < before)
  | GPIO_MODE_IT_RISING_FALLING => bool_decide (before ≠ after)
  end.

(** * Properties *)

(** Closed decidable facts about the tables are settled by evaluation. *)
Ltac by_eval := apply (bool_decide_unpack _); vm_compute; exact I.

(** ** The LED table and the roles *)

(** C1: the LED table has four entries, but they do not carry the indices
    1, 2, 3, 4 in order: the entries carry 1, 2, 3, 3, so the fourth entry
    (position 4, pin C5) carries logical index 3, not 4. *)
Theorem led_mapping_fourth_entry_index :
  length MICROPY_HW_LED_MAPPING = 4%nat
  ∧ led_id <$> MICROPY_HW_LED_MAPPING = [1; 2; 3; 3]
  ∧ led_id <$> (MICROPY_HW_LED_MAPPING !! 3%nat) = Some 3
  ∧ ¬ (∀ i : nat, (i < 4)%nat →
         led_id <$> (MICROPY_HW_LED_MAPPING !! i) = Some (Z.of_nat i + 1)).
Proof.
  repeat split; try reflexivity.
  intros H. specialize (H 3%nat ltac:(lia)). discriminate H.
Qed.

(** C2: each of the four mandatory roles resolves to a logical index that
    occurs in the LED table, that lies within 1..NUM_LEDS, and that selects
    an entry of the table; and the table is not empty. *)
Theorem mandatory_roles_resolve :
  MICROPY_HW_LED_MAPPING ≠ []
  ∧ Forall (λ r, r ∈ (led_id <$> MICROPY_HW_LED_MAPPING)
               ∧ 1 ≤ r ≤ NUM_LEDS
               ∧ is_Some (led_entry r)) mandatory_roles.
Proof.
  split; [discriminate |].
  repeat constructor; try (vm_compute; congruence);
    try (eexists; reflexivity); by_eval.
Qed.

(** C3: the error-primary role and the storage-primary role are the same
    logical index, select the same table entry and hence the same pin (A8),
    and asserting either is the same computation: one store of that pin's
    mask to the reset half of port A.  Likewise the two secondary roles
    alias the same pin (A10). *)
Theorem error_roles_alias_storage_roles :
  (PYB_LED_ERROR1 = PYB_LED_STORAGE1
   ∧ led_entry PYB_LED_ERROR1 = led_entry PYB_LED_STORAGE1
   ∧ led_with_id PYB_LED_ERROR1 = led_with_id PYB_LED_STORAGE1
   ∧ led_pin <$> led_entry PYB_LED_ERROR1 = Some pin_A8
   ∧ led_pin <$> led_entry PYB_LED_STORAGE1 = Some pin_A8
   ∧ led_pin <$> led_with_id PYB_LED_ERROR1 = [pin_A8]
   ∧ (∀ (A : Type) (resolve : Z → A),
        resolve PYB_LED_ERROR1 = resolve PYB_LED_STORAGE1)
   ∧ (∀ s, led_state PYB_LED_ERROR1 true s
           = led_state PYB_LED_STORAGE1 true s)
   ∧ (∀ s, events_of (led_state PYB_LED_ERROR1 true s)
           = [BusWrite GPIOA BSRRH (pin_mask pin_A8)])
   ∧ (∀ s, events_of (led_state PYB_LED_STORAGE1 true s)
           = [BusWrite GPIOA BSRRH (pin_mask pin_A8)]))
  ∧ (PYB_LED_ERROR2 = PYB_LED_STORAGE2
     ∧ led_entry PYB_LED_ERROR2 = led_entry PYB_LED_STORAGE2
     ∧ led_with_id PYB_LED_ERROR2 = led_with_id PYB_LED_STORAGE2
     ∧ led_pin <$> led_entry PYB_LED_ERROR2 = Some pin_A10
     ∧ led_pin <$> led_entry PYB_LED_STORAGE2 = Some pin_A10
     ∧ led_pin <$> led_with_id PYB_LED_ERROR2 = [pin_A10]
     ∧ (∀ (A : Type) (resolve : Z → A),
          resolve PYB_LED_ERROR2 = resolve PYB_LED_STORAGE2)
     ∧ (∀ s, led_state PYB_LED_ERROR2 true s
             = led_state PYB_LED_STORAGE2 true s)
     ∧ (∀ s, events_of (led_state PYB_LED_ERROR2 true s)
             = [BusWrite GPIOA BSRRH (pin_mask pin_A10)])
     ∧ (∀ s, events_of (led_state PYB_LED_STORAGE2 true s)
             = [BusWrite GPIOA BSRRH (pin_mask pin_A10)])).
Proof. repeat split; intros; reflexivity. Qed.

(** ** The digital input bindings *)

(** C4: the switch binding has the pull-up configuration and the pressed
    level 0: a sampled level 0 is pressed, a sampled level 1 is not, and a
    level is the pressed level exactly when it is 0. *)
Theorem switch_pressed_active_low :
  MICROPY_HW_USRSW_PULL = GPIO_PULLUP
  ∧ switch_pressed 0 = true
  ∧ switch_pressed 1 = false
  ∧ (∀ level, level = MICROPY_HW_USRSW_PRESSED ↔ level = 0)
  ∧ (∀ level, switch_pressed level = true ↔ level = 0).
Proof.
  repeat split; try reflexivity; unfold switch_pressed;
    rewrite ?bool_decide_eq_true; auto.
Qed.

(** C5: the SD-detect binding has the pull-down configuration and the
    present level 1 (the set level): a sampled level 0 is "no card", and a
    level is the present level exactly when it is 1. *)
Theorem sdcard_present_active_high :
  MICROPY_HW_SDCARD_DETECT_PULL = GPIO_PULLDOWN
  ∧ MICROPY_HW_SDCARD_DETECT_PRESENT = GPIO_PIN_SET
  ∧ sdcard_present 0 = false
  ∧ (∀ level, level = MICROPY_HW_SDCARD_DETECT_PRESENT ↔ level = 1)
  ∧ (∀ level, sdcard_present level = true ↔ level = 1).
Proof.
  repeat split; try reflexivity; unfold sdcard_present;
    rewrite ?bool_decide_eq_true; auto.
Qed.

(** ** The pins *)

(** C8: the pins the board binds are the switch pin A13, the LED pins A8,
    A10, C4, C5 and the SD-detect pin C13, and they are pairwise distinct,
    as pin objects and as (port, number) pairs. *)
Theorem board_pins_pairwise_distinct :
  board_pins = [pin_A13; pin_A8; pin_A10; pin_C4; pin_C5; pin_C13]
  ∧ NoDup board_pins
  ∧ NoDup ((λ p, (gpio p, pin p)) <$> board_pins).
Proof. split; [reflexivity |]. split; by_eval. Qed.

(** C10: the logical indices that occur in the LED table are exactly 1, 2
    and 3; index 3 is carried by two entries, on the different pins C4 and
    C5, and index 4 by none; so two entries agree on the index and differ
    in the pin, while the index of each mandatory role is carried by exactly
    one entry. *)
Theorem led_indices_are_one_two_three :
  (∀ i, i ∈ (led_id <$> MICROPY_HW_LED_MAPPING) ↔ i = 1 ∨ i = 2 ∨ i = 3)
  ∧ led_pin <$> led_with_id 3 = [pin_C4; pin_C5]
  ∧ pin_C4 ≠ pin_C5
  ∧ led_with_id 4 = []
  ∧ (∃ e1 e2, e1 ∈ MICROPY_HW_LED_MAPPING ∧ e2 ∈ MICROPY_HW_LED_MAPPING
              ∧ led_id e1 = led_id e2 ∧ led_pin e1 ≠ led_pin e2)
  ∧ Forall (λ r, length (led_with_id r) = 1%nat) mandatory_roles.
Proof.
  split.
  { intros i. change (led_id <$> MICROPY_HW_LED_MAPPING) with [1; 2; 3; 3].
    rewrite !elem_of_cons, elem_of_nil. tauto. }
  split; [reflexivity |]. split; [discriminate |]. split; [reflexivity |].
  split.
  - exists (mkLed (mkBase pyb_led_type) 3 pin_C4),
           (mkLed (mkBase pyb_led_type) 3 pin_C5).
    repeat split; by_eval.
  - repeat constructor.
Qed.

(** ** The two LED macros *)

Lemma set_ODR_same r : set_ODR (r_ODR r) r = r.
Proof. by destruct r. Qed.

Lemma set_ODR_set v w r : set_ODR v (set_ODR w r) = set_ODR v r.
Proof. reflexivity. Qed.

Lemma r_ODR_set v r : r_ODR (set_ODR v r) = v.
Proof. reflexivity. Qed.

Lemma state_of_mret {A} (a : A) (s : ports) :
  state_of ((mret a : M A) s) = s.
Proof. reflexivity. Qed.

Lemma bound_led_pins_wf : Forall pin_wf (led_pin <$> MICROPY_HW_LED_MAPPING).
Proof. repeat constructor; by_eval. Qed.

Lemma bound_led_pin_wf e : e ∈ MICROPY_HW_LED_MAPPING → pin_wf (led_pin e).
Proof.
  intros He. eapply Forall_forall; [apply bound_led_pins_wf |].
  by apply list_elem_of_fmap_2.
Qed.

Lemma same_but_pin_refl p s : same_but_pin p s s.
Proof. repeat split; auto using set_ODR_same. Qed.

Lemma same_but_pin_trans p s1 s2 s3 :
  same_but_pin p s1 s2 → same_but_pin p s2 s3 → same_but_pin p s1 s3.
Proof.
  intros (Hg & Hf & Hb) (Hg' & Hf' & Hb'). repeat split.
  - intros g Hne. rewrite Hg', Hg; auto.
  - by rewrite <- (set_ODR_set _ (r_ODR (s2 (gpio p)))), Hf'.
  - intros j Hj. rewrite Hb', Hb; auto.
Qed.

Section LedMacros.

Variable p : pin_obj_t.
Hypothesis Hwf : pin_wf p.

Lemma pin_mask_uint16 : uint16 (pin_mask p) = 2 ^ pin p.
Proof.
  destruct Hwf as [Hr ->]. unfold uint16. apply Z.mod_small. split.
  - apply Z.pow_nonneg; lia.
  - apply Z.pow_lt_mono_r; lia.
Qed.

Lemma pin_mask_bit j : Z.testbit (2 ^ pin p) j = bool_decide (j = pin p).
Proof.
  destruct Hwf as [Hr _]. rewrite Z.pow2_bits_eqb by lia.
  case_bool_decide; [apply Z.eqb_eq | apply Z.eqb_neq]; congruence.
Qed.

Lemma led_on_port s :
  state_of (MICROPY_HW_LED_ON p s) (gpio p)
  = set_ODR (Z.ldiff (r_ODR (s (gpio p))) (2 ^ pin p)) (s (gpio p)).
Proof.
  unfold MICROPY_HW_LED_ON, store, state_of; cbn [fst snd].
  rewrite fn_lookup_insert. cbn [port_store]. by rewrite pin_mask_uint16.
Qed.

Lemma led_off_port s :
  state_of (MICROPY_HW_LED_OFF p s) (gpio p)
  = set_ODR (Z.lor (r_ODR (s (gpio p))) (2 ^ pin p)) (s (gpio p)).
Proof.
  unfold MICROPY_HW_LED_OFF, store, state_of; cbn [fst snd].
  rewrite fn_lookup_insert. cbn [port_store]. by rewrite pin_mask_uint16.
Qed.

Lemma led_do_other_port op s g :
  g ≠ gpio p → state_of (led_do op p s) g = s g.
Proof.
  intros Hne. destruct op; unfold led_do, MICROPY_HW_LED_ON,
    MICROPY_HW_LED_OFF, store, state_of; cbn [fst snd];
    by rewrite fn_lookup_insert_ne.
Qed.

Lemma led_on_level s :
  pin_level (state_of (MICROPY_HW_LED_ON p s)) p = GPIO_PIN_RESET.
Proof.
  unfold pin_level. rewrite led_on_port, r_ODR_set, Z.ldiff_spec.
  rewrite pin_mask_bit, bool_decide_eq_true_2 by done.
  by rewrite andb_false_r.
Qed.

Lemma led_off_level s :
  pin_level (state_of (MICROPY_HW_LED_OFF p s)) p = GPIO_PIN_SET.
Proof.
  unfold pin_level. rewrite led_off_port, r_ODR_set, Z.lor_spec.
  rewrite pin_mask_bit, bool_decide_eq_true_2 by done.
  by rewrite orb_true_r.
Qed.

Lemma led_on_frame s : same_but_pin p s (state_of (MICROPY_HW_LED_ON p s)).
Proof.
  split; [| split].
  - intros g Hne. by apply (led_do_other_port Assert).
  - rewrite led_on_port, set_ODR_set. apply set_ODR_same.
  - intros j Hj. rewrite led_on_port, r_ODR_set, Z.ldiff_spec.
    rewrite pin_mask_bit, bool_decide_eq_false_2 by done.
    apply andb_true_r.
Qed.

Lemma led_off_frame s :
  same_but_pin p s (state_of (MICROPY_HW_LED_OFF p s)).
Proof.
  split; [| split].
  - intros g Hne. by apply (led_do_other_port Deassert).
  - rewrite led_off_port, set_ODR_set. apply set_ODR_same.
  - intros j Hj. rewrite led_off_port, r_ODR_set, Z.lor_spec.
    rewrite pin_mask_bit, bool_decide_eq_false_2 by done.
    apply orb_false_r.
Qed.

(** The level of another pin, on this port or on another, is kept by a
    change that is confined to this pin. *)
Lemma same_but_pin_level s s' q :
  same_but_pin p s s' → (gpio q, pin q) ≠ (gpio p, pin p) →
  pin_level s' q = pin_level s q.
Proof.
  intros (Hg & _ & Hb) Hne. unfold pin_level.
  destruct (decide (gpio q = gpio p)) as [Heq | Hport].
  - rewrite Heq, Hb; [done |]. intros Hpin. apply Hne. by rewrite Heq, Hpin.
  - by rewrite Hg.
Qed.

(** Unfolding a sequence of operations by its first one. *)
Lemma led_seq_cons_state op ops s :
  state_of (led_seq (op :: ops) p s)
  = state_of (led_seq ops p (state_of (led_do op p s))).
Proof.
  cbn [led_seq]. unfold mbind, M_bind.
  destruct (led_do op p s) as [[v s1] t1] eqn:E1. cbn [state_of fst snd].
  by destruct (led_seq ops p s1) as [[[] s2] t2].
Qed.

Lemma led_seq_cons_events op ops s :
  events_of (led_seq (op :: ops) p s)
  = events_of (led_do op p s)
      ++ events_of (led_seq ops p (state_of (led_do op p s))).
Proof.
  cbn [led_seq]. unfold mbind, M_bind.
  destruct (led_do op p s) as [[v s1] t1] eqn:E1.
  cbn [state_of events_of fst snd].
  by destruct (led_seq ops p s1) as [[[] s2] t2].
Qed.

(** The level after a sequence is decided by its last operation. *)
Lemma led_seq_last_level ops op s :
  pin_level (state_of (led_seq (ops ++ [op]) p s)) p
  = match op with Assert => GPIO_PIN_RESET | Deassert => GPIO_PIN_SET end.
Proof.
  revert s. induction ops as [| o ops IH]; intros s.
  - cbn [app]. rewrite led_seq_cons_state. cbn [led_seq].
    rewrite state_of_mret.
    destruct op; [apply led_on_level | apply led_off_level].
  - cbn [app]. rewrite led_seq_cons_state. apply IH.
Qed.

(** A sequence is confined to the pin. *)
Lemma led_seq_frame ops s : same_but_pin p s (state_of (led_seq ops p s)).
Proof.
  revert s. induction ops as [| o ops IH]; intros s.
  - apply same_but_pin_refl.
  - rewrite led_seq_cons_state.
    eapply same_but_pin_trans; [| apply IH].
    destruct o; [apply led_on_frame | apply led_off_frame].
Qed.

(** A sequence makes one store per operation, and nothing else. *)
Lemma led_seq_events ops s :
  events_of (led_seq ops p s)
  = (λ op, BusWrite (gpio p)
             match op with Assert => BSRRH | Deassert => BSRRL end
             (pin_mask p)) <$> ops.
Proof.
  revert s. induction ops as [| o ops IH]; intros s; [reflexivity |].
  rewrite led_seq_cons_events, IH. by destruct o.
Qed.

(** Setting a bit that is set already, after clearing it, restores the
    word. *)
Lemma lor_ldiff_restore o :
  Z.testbit o (pin p) = true → Z.lor (Z.ldiff o (2 ^ pin p)) (2 ^ pin p) = o.
Proof.
  intros Hbit. apply Z.bits_inj. intros j.
  rewrite Z.lor_spec, Z.ldiff_spec, pin_mask_bit.
  case_bool_decide as Hj.
  - subst j. by rewrite Hbit.
  - by rewrite andb_true_r, orb_false_r.
Qed.

Lemma pin_level_set s :
  pin_level s p = GPIO_PIN_SET → Z.testbit (r_ODR (s (gpio p))) (pin p) = true.
Proof. unfold pin_level. by destruct (Z.testbit _ _). Qed.

(** Assert then deassert gives back the port state it started from, when
    the pin started at the set level. *)
Lemma led_on_off_restore s g :
  pin_level s p = GPIO_PIN_SET →
  state_of (led_seq [Assert; Deassert] p s) g = s g.
Proof.
  intros Hlvl. rewrite !led_seq_cons_state. cbn [led_seq led_do].
  rewrite state_of_mret.
  destruct (decide (g = gpio p)) as [-> | Hne].
  - rewrite led_off_port, led_on_port, r_ODR_set, set_ODR_set.
    rewrite lor_ldiff_restore by by apply pin_level_set.
    apply set_ODR_same.
  - rewrite (led_do_other_port Deassert), (led_do_other_port Assert); auto.
Qed.

End LedMacros.

Lemma led_seq_app_state p ops1 ops2 s :
  state_of (led_seq (ops1 ++ ops2) p s)
  = state_of (led_seq ops2 p (state_of (led_seq ops1 p s))).
Proof.
  revert s. induction ops1 as [| o ops1 IH]; intros s; [done |].
  cbn [app]. by rewrite !led_seq_cons_state, IH.
Qed.

(** C6: for every LED pin of the table, starting from the deasserted level
    (the set level, the one the off macro drives), the sequence assert,
    deassert, assert, deassert brings the pin back to the level it started
    from, and indeed every port back to the state it started from; on the
    way the pin is low, high, low in turn; and after an assert-deassert
    pair, from any state and after any earlier operations, the pin is at
    the deasserted level. *)
Theorem led_assert_deassert_twice_returns_inactive e s :
  e ∈ MICROPY_HW_LED_MAPPING →
  pin_level s (led_pin e) = GPIO_PIN_SET →
  pin_level (state_of (led_seq [Assert; Deassert; Assert; Deassert]
                               (led_pin e) s)) (led_pin e)
    = pin_level s (led_pin e)
  ∧ (∀ g, state_of (led_seq [Assert; Deassert; Assert; Deassert]
                            (led_pin e) s) g = s g)
  ∧ pin_level (state_of (led_seq [Assert] (led_pin e) s)) (led_pin e)
      = GPIO_PIN_RESET
  ∧ pin_level (state_of (led_seq [Assert; Deassert] (led_pin e) s))
              (led_pin e) = GPIO_PIN_SET
  ∧ pin_level (state_of (led_seq [Assert; Deassert; Assert] (led_pin e) s))
              (led_pin e) = GPIO_PIN_RESET
  ∧ (∀ ops s0,
       pin_level (state_of (led_seq (ops ++ [Assert; Deassert])
                                    (led_pin e) s0)) (led_pin e)
         = GPIO_PIN_SET
       ∧ pin_level (state_of (led_seq (ops ++ [Assert; Deassert])
                                      (led_pin e) s0)) (led_pin e)
         = pin_level (state_of (MICROPY_HW_LED_OFF (led_pin e) s0))
                     (led_pin e)).
Proof.
  intros He Hlvl. pose proof (bound_led_pin_wf e He) as Hwf.
  set (p := led_pin e) in *.
  assert (Hlast : ∀ ops s0,
    pin_level (state_of (led_seq (ops ++ [Assert; Deassert]) p s0)) p
    = GPIO_PIN_SET).
  { intros ops s0.
    replace (ops ++ [Assert; Deassert]) with ((ops ++ [Assert]) ++ [Deassert])
      by by rewrite <- app_assoc.
    apply (led_seq_last_level p Hwf _ Deassert). }
  assert (Hall : ∀ g,
    state_of (led_seq [Assert; Deassert; Assert; Deassert] p s) g = s g).
  { intros g.
    rewrite (led_seq_app_state p [Assert; Deassert] [Assert; Deassert]).
    rewrite led_on_off_restore; [by apply led_on_off_restore | done |].
    apply (led_seq_last_level p Hwf [Assert] Deassert). }
  repeat split.
  - unfold pin_level. by rewrite Hall.
  - exact Hall.
  - apply (led_seq_last_level p Hwf [] Assert).
  - apply (led_seq_last_level p Hwf [Assert] Deassert).
  - apply (led_seq_last_level p Hwf [Assert; Deassert] Assert).
  - apply Hlast.
  - rewrite Hlast. symmetry. by apply led_off_level.
Qed.

(** C7: for every LED pin of the table, the on macro and the off macro each
    make exactly one bus access, a store of the pin's mask (no load, so no
    read-modify-write); the on macro stores to the field [BSRRH] and the off
    macro to the different field [BSRRL]; and each leaves every other port,
    every other register of the pin's port and every other bit of the
    output data register as it was, so the level of every other pin is
    unchanged. *)
Theorem led_macros_single_store_frame e s :
  e ∈ MICROPY_HW_LED_MAPPING →
  events_of (MICROPY_HW_LED_ON (led_pin e) s)
    = [BusWrite (gpio (led_pin e)) BSRRH (pin_mask (led_pin e))]
  ∧ events_of (MICROPY_HW_LED_OFF (led_pin e) s)
    = [BusWrite (gpio (led_pin e)) BSRRL (pin_mask (led_pin e))]
  ∧ length (events_of (MICROPY_HW_LED_ON (led_pin e) s)) = 1%nat
  ∧ length (events_of (MICROPY_HW_LED_OFF (led_pin e) s)) = 1%nat
  ∧ forallb is_write (events_of (MICROPY_HW_LED_ON (led_pin e) s)) = true
  ∧ forallb is_write (events_of (MICROPY_HW_LED_OFF (led_pin e) s)) = true
  ∧ BSRRH ≠ BSRRL
  ∧ same_but_pin (led_pin e) s (state_of (MICROPY_HW_LED_ON (led_pin e) s))
  ∧ same_but_pin (led_pin e) s (state_of (MICROPY_HW_LED_OFF (led_pin e) s))
  ∧ (∀ q, (gpio q, pin q) ≠ (gpio (led_pin e), pin (led_pin e)) →
       pin_level (state_of (MICROPY_HW_LED_ON (led_pin e) s)) q
         = pin_level s q
       ∧ pin_level (state_of (MICROPY_HW_LED_OFF (led_pin e) s)) q
         = pin_level s q).
Proof.
  intros He. pose proof (bound_led_pin_wf e He) as Hwf.
  do 6 (split; [reflexivity |]). split; [discriminate |].
  split; [by apply led_on_frame |]. split; [by apply led_off_frame |].
  intros q Hq. split; eapply same_but_pin_level; eauto.
  - by apply led_on_frame.
  - by apply led_off_frame.
Qed.

(** C9: for every LED pin of the table, the on macro stores the pin's mask
    to [BSRRH], the half whose store clears bits of the output data
    register, and leaves the pin at the low level; the off macro stores it
    to [BSRRL], the half whose store sets bits, and leaves the pin at the
    high level: an LED of this board is on when its pin is low. *)
Theorem led_on_is_electrical_low e s :
  e ∈ MICROPY_HW_LED_MAPPING →
  (events_of (MICROPY_HW_LED_ON (led_pin e) s)
     = [BusWrite (gpio (led_pin e)) BSRRH (pin_mask (led_pin e))]
   ∧ pin_level (state_of (MICROPY_HW_LED_ON (led_pin e) s)) (led_pin e)
     = GPIO_PIN_RESET)
  ∧ (events_of (MICROPY_HW_LED_OFF (led_pin e) s)
       = [BusWrite (gpio (led_pin e)) BSRRL (pin_mask (led_pin e))]
     ∧ pin_level (state_of (MICROPY_HW_LED_OFF (led_pin e) s)) (led_pin e)
       = GPIO_PIN_SET)
  ∧ (∀ v r, r_ODR (port_store BSRRH v r) = Z.ldiff (r_ODR r) (uint16 v))
  ∧ (∀ v r, r_ODR (port_store BSRRL v r) = Z.lor (r_ODR r) (uint16 v)).
Proof.
  intros He. pose proof (bound_led_pin_wf e He) as Hwf.
  repeat split.
  - by apply led_on_level.
  - by apply led_off_level.
Qed.

(** ** The theorems at concrete pins *)

(** The red LED on A8, deasserted once from the all-zero state, then taken
    through assert, deassert, assert, deassert. *)
Lemma led_assert_deassert_twice_witness :
  mkLed (mkBase pyb_led_type) 1 pin_A8 ∈ MICROPY_HW_LED_MAPPING
  ∧ pin_level (state_of (MICROPY_HW_LED_OFF pin_A8 gpio_zero)) pin_A8
    = GPIO_PIN_SET
  ∧ pin_level
      (state_of (led_seq [Assert; Deassert; Assert; Deassert] pin_A8
                         (state_of (MICROPY_HW_LED_OFF pin_A8 gpio_zero))))
      pin_A8
    = GPIO_PIN_SET.
Proof.
  assert (Hin : mkLed (mkBase pyb_led_type) 1 pin_A8
                  ∈ MICROPY_HW_LED_MAPPING) by by_eval.
  assert (Hlvl : pin_level (state_of (MICROPY_HW_LED_OFF pin_A8 gpio_zero))
                           pin_A8 = GPIO_PIN_SET) by reflexivity.
  split; [exact Hin |]. split; [exact Hlvl |].
  exact (proj1 (led_assert_deassert_twice_returns_inactive _ _ Hin Hlvl)).
Defined.

(** The green LED on C4, switched on in the all-zero state: one store to
    the reset half of port C. *)
Lemma led_macros_single_store_witness :
  mkLed (mkBase pyb_led_type) 3 pin_C4 ∈ MICROPY_HW_LED_MAPPING
  ∧ events_of (MICROPY_HW_LED_ON pin_C4 gpio_zero)
    = [BusWrite GPIOC BSRRH 16].
Proof.
  assert (Hin : mkLed (mkBase pyb_led_type) 3 pin_C4
                  ∈ MICROPY_HW_LED_MAPPING) by by_eval.
  split; [exact Hin |].
  exact (proj1 (led_macros_single_store_frame _ gpio_zero Hin)).
Defined.

(** The green LED on C5, switched off in the all-zero state: the pin goes
    high. *)
Lemma led_on_is_electrical_low_witness :
  mkLed (mkBase pyb_led_type) 3 pin_C5 ∈ MICROPY_HW_LED_MAPPING
  ∧ pin_level (state_of (MICROPY_HW_LED_OFF pin_C5 gpio_zero)) pin_C5 = 1.
Proof.
  assert (Hin : mkLed (mkBase pyb_led_type) 3 pin_C5
                  ∈ MICROPY_HW_LED_MAPPING) by by_eval.
  split; [exact Hin |].
  exact (proj2 (proj1 (proj2 (led_on_is_electrical_low _ gpio_zero Hin)))).
Defined.

(** ** How the LED operations compose *)

(** The word an operation leaves in the output data register. *)
Lemma led_do_state p op s g :
  pin_wf p →
  state_of (led_do op p s) g
  = if decide (g = gpio p)
    then set_ODR (match op with
                  | Assert => Z.ldiff (r_ODR (s g)) (2 ^ pin p)
                  | Deassert => Z.lor (r_ODR (s g)) (2 ^ pin p)
                  end) (s g)
    else s g.
Proof.
  intros Hwf. case_decide as Hg.
  - subst g. destruct op; [by apply led_on_port | by apply led_off_port].
  - by apply led_do_other_port.
Qed.

Lemma op_word_bit p op o j :
  pin_wf p →
  Z.testbit (match op with
             | Assert => Z.ldiff o (2 ^ pin p)
             | Deassert => Z.lor o (2 ^ pin p)
             end) j
  = if decide (j = pin p)
    then match op with Assert => false | Deassert => true end
    else Z.testbit o j.
Proof.
  intros Hwf. destruct op.
  - rewrite Z.ldiff_spec, (pin_mask_bit p Hwf). case_decide.
    + rewrite bool_decide_eq_true_2 by done. apply andb_false_r.
    + rewrite bool_decide_eq_false_2 by done. apply andb_true_r.
  - rewrite Z.lor_spec, (pin_mask_bit p Hwf). case_decide.
    + rewrite bool_decide_eq_true_2 by done. apply orb_true_r.
    + rewrite bool_decide_eq_false_2 by done. apply orb_false_r.
Qed.

(** An operation forgets what the pin's bit was before. *)
Lemma led_do_same_but_pin p op s s' g :
  pin_wf p → same_but_pin p s s' →
  state_of (led_do op p s') g = state_of (led_do op p s) g.
Proof.
  intros Hwf (Hg & Hf & Hb). rewrite !led_do_state by done.
  case_decide as Heq; [subst g | by apply Hg].
  assert (Hs : ∀ v, set_ODR v (s (gpio p)) = set_ODR v (s' (gpio p))).
  { intros v. rewrite <- Hf. apply set_ODR_set. }
  rewrite Hs. f_equal.
  apply Z.bits_inj. intros j. rewrite !op_word_bit by done.
  case_decide; [done |]. by apply Hb.
Qed.

Lemma led_seq_single p op s : state_of (led_seq [op] p s) = state_of (led_do op p s).
Proof. by rewrite led_seq_cons_state. Qed.

(** X1: on a well-formed pin, a sequence of on and off operations leaves
    every port in the state its last operation alone would have left it in:
    earlier operations on the pin are forgotten.  In particular an operation
    done twice is the operation done once, and on after off is on. *)
Theorem led_seq_is_its_last_op p ops op s g :
  pin_wf p →
  state_of (led_seq (ops ++ [op]) p s) g = state_of (led_do op p s) g.
Proof.
  intros Hwf. rewrite led_seq_app_state, led_seq_single.
  apply led_do_same_but_pin; [done |]. by apply led_seq_frame.
Qed.

(** X2: operations on two well-formed pins that are different physical pins
    (of one port or of two) commute: either order leaves every port in the
    same state. *)
Theorem led_ops_on_distinct_pins_commute p q a b s g :
  pin_wf p → pin_wf q → pin_id p ≠ pin_id q →
  state_of (led_do b q (state_of (led_do a p s))) g
  = state_of (led_do a p (state_of (led_do b q s))) g.
Proof.
  intros Hp Hq Hne. rewrite !led_do_state by done.
  destruct (decide (g = gpio p)) as [Hgp | Hgp],
           (decide (g = gpio q)) as [Hgq | Hgq]; try done.
  rewrite !r_ODR_set, !set_ODR_set. f_equal.
  apply Z.bits_inj. intros j. rewrite !op_word_bit by done.
  repeat case_decide; try done.
  exfalso. apply Hne. unfold pin_id. congruence.
Qed.

(** X3: a sequence of operations on a pin makes one store per operation and
    no load: the bus log is, operation by operation, a store of the pin's
    mask to [BSRRH] (on) or [BSRRL] (off) of the pin's port, whatever the
    state of the ports. *)
Theorem led_seq_bus_log p ops s :
  events_of (led_seq ops p s)
    = (λ op, BusWrite (gpio p) (op_field op) (pin_mask p)) <$> ops
  ∧ length (events_of (led_seq ops p s)) = length ops
  ∧ forallb is_write (events_of (led_seq ops p s)) = true.
Proof.
  assert (Hev : events_of (led_seq ops p s)
    = (λ op, BusWrite (gpio p) (op_field op) (pin_mask p)) <$> ops).
  { rewrite led_seq_events. apply list_fmap_ext. by intros i [] _. }
  rewrite Hev. split; [done |]. split; [apply length_fmap |].
  apply forallb_forall. intros ev Hin.
  apply list_elem_of_In, list_elem_of_fmap in Hin as (op & -> & _). done.
Qed.





(** X5: because the error roles and the storage roles share their logical
    indices, an entry of the table that serves an error role and an entry
    that serves the matching storage role are on the same pin, and switching
    the storage indicator off after the error indicator was switched on
    leaves the error LED off. *)
Theorem storage_off_turns_error_off e1 e2 s :
  e1 ∈ MICROPY_HW_LED_MAPPING → e2 ∈ MICROPY_HW_LED_MAPPING →
  (led_id e1 = PYB_LED_ERROR1 ∧ led_id e2 = PYB_LED_STORAGE1)
  ∨ (led_id e1 = PYB_LED_ERROR2 ∧ led_id e2 = PYB_LED_STORAGE2) →
  led_pin e1 = led_pin e2
  ∧ pin_level (state_of (MICROPY_HW_LED_ON (led_pin e1) s)) (led_pin e1)
    = GPIO_PIN_RESET
  ∧ pin_level
      (state_of (MICROPY_HW_LED_OFF (led_pin e2)
                   (state_of (MICROPY_HW_LED_ON (led_pin e1) s))))
      (led_pin e1)
    = GPIO_PIN_SET.
Proof.
  intros H1 H2 Hroles. pose proof (bound_led_pin_wf e1 H1) as Hwf.
  assert (Hpin : led_pin e1 = led_pin e2).
  { unfold MICROPY_HW_LED_MAPPING in H1, H2.
    rewrite !elem_of_cons, elem_of_nil in H1, H2.
    destruct H1 as [-> | [-> | [-> | [-> | []]]]],
             H2 as [-> | [-> | [-> | [-> | []]]]];
      destruct Hroles as [[Ha Hb] | [Ha Hb]]; try done. }
  split; [done |]. split; [by apply led_on_level |].
  rewrite <- Hpin. by apply led_off_level.
Qed.

(** ** The switch and the SD-detect line *)

(** X6: for sampled levels 0 and 1, the interrupt trigger the header arms
    for the switch (falling edge) fires exactly on a press: when the level
    before is not the pressed level and the level after is. *)
Theorem switch_press_is_the_armed_edge before after :
  before = 0 ∨ before = 1 → after = 0 ∨ after = 1 →
  exti_fires MICROPY_HW_USRSW_EXTI_MODE before after = true
  ↔ switch_pressed before = false ∧ switch_pressed after = true.
Proof.
  intros Hb Ha. unfold exti_fires, switch_pressed, MICROPY_HW_USRSW_EXTI_MODE,
    MICROPY_HW_USRSW_PRESSED.
  rewrite !bool_decide_eq_true, bool_decide_eq_false. lia.
Qed.

(** X7: each input binding has a pull configuration with a rest level, and
    that rest level is the inactive one: an undriven switch line reads as
    not pressed and an undriven detect line as no card. *)
Theorem input_bindings_rest_inactive :
  (∃ l, pull_idle_level MICROPY_HW_USRSW_PULL = Some l
        ∧ switch_pressed l = false)
  ∧ (∃ l, pull_idle_level MICROPY_HW_SDCARD_DETECT_PULL = Some l
          ∧ sdcard_present l = false).
Proof. split; eexists; split; reflexivity. Qed.

(** ** A pass over the LED table *)








(** ** The macros on an arbitrary pin object *)

Lemma uint16_bit v j :
  Z.testbit (uint16 v) j = Z.testbit v j && bool_decide (j < 16).
Proof.
  unfold uint16. case_bool_decide as Hj.
  - rewrite andb_true_r. destruct (decide (0 ≤ j)) as [Hpos | Hneg].
    + by apply Z.mod_pow2_bits_low.
    + rewrite !Z.testbit_neg_r by lia. done.
  - rewrite andb_false_r. apply Z.mod_pow2_bits_high. lia.
Qed.

(** X9: for any pin object, well formed or not, an on or off operation
    changes only the output data register of the pin's port, and there only
    the bits below 16 at which the pin's mask has a 1: those are cleared by
    on and set by off, every other bit keeps its value, and every other
    register and every other port is as before. *)
Theorem led_macro_touches_only_mask_bits p op s :
  (∀ j, Z.testbit (r_ODR (state_of (led_do op p s) (gpio p))) j
        = if Z.testbit (pin_mask p) j && bool_decide (j < 16)
          then match op with Assert => false | Deassert => true end
          else Z.testbit (r_ODR (s (gpio p))) j)
  ∧ set_ODR (r_ODR (s (gpio p))) (state_of (led_do op p s) (gpio p))
    = s (gpio p)
  ∧ (∀ g, g ≠ gpio p → state_of (led_do op p s) g = s g).
Proof.
  split; [| split].
  - intros j. destruct op;
      unfold led_do, MICROPY_HW_LED_ON, MICROPY_HW_LED_OFF, store, state_of;
      cbn [fst snd]; rewrite fn_lookup_insert; cbn [port_store];
      rewrite r_ODR_set.
    + rewrite Z.ldiff_spec, uint16_bit.
      destruct (Z.testbit (pin_mask p) j && bool_decide (j < 16));
        [apply andb_false_r | apply andb_true_r].
    + rewrite Z.lor_spec, uint16_bit.
      destruct (Z.testbit (pin_mask p) j && bool_decide (j < 16));
        [apply orb_true_r | apply orb_false_r].
  - destruct op;
      unfold led_do, MICROPY_HW_LED_ON, MICROPY_HW_LED_OFF, store, state_of;
      cbn [fst snd]; rewrite fn_lookup_insert; cbn [port_store];
      rewrite set_ODR_set; apply set_ODR_same.
  - intros g Hne. destruct op;
      unfold led_do, MICROPY_HW_LED_ON, MICROPY_HW_LED_OFF, store, state_of;
      cbn [fst snd]; by rewrite fn_lookup_insert_ne.
Qed.

(** ** These theorems at concrete inputs *)

(** Off, on, on, off on A10 from the all-zero state is off alone. *)
Lemma led_seq_is_its_last_op_witness :
  pin_wf pin_A10
  ∧ state_of (led_seq ([Deassert; Assert; Assert] ++ [Deassert]) pin_A10
                      gpio_zero) GPIOA
    = state_of (led_do Deassert pin_A10 gpio_zero) GPIOA.
Proof.
  assert (Hwf : pin_wf pin_A10) by by_eval.
  split; [exact Hwf |].
  exact (led_seq_is_its_last_op pin_A10 [Deassert; Assert; Assert] Deassert
           gpio_zero GPIOA Hwf).
Defined.

(** The two green LEDs, C4 and C5, share port C. *)
Lemma led_ops_on_distinct_pins_commute_witness :
  pin_wf pin_C4 ∧ pin_wf pin_C5 ∧ pin_id pin_C4 ≠ pin_id pin_C5
  ∧ state_of (led_do Assert pin_C5
                (state_of (led_do Deassert pin_C4 gpio_zero))) GPIOC
    = state_of (led_do Deassert pin_C4
                  (state_of (led_do Assert pin_C5 gpio_zero))) GPIOC.
Proof.
  assert (H4 : pin_wf pin_C4) by by_eval.
  assert (H5 : pin_wf pin_C5) by by_eval.
  assert (Hne : pin_id pin_C4 ≠ pin_id pin_C5) by by_eval.
  split; [exact H4 |]. split; [exact H5 |]. split; [exact Hne |].
  exact (led_ops_on_distinct_pins_commute pin_C4 pin_C5 Deassert Assert
           gpio_zero GPIOC H4 H5 Hne).
Defined.


(** The secondary roles: both are entry 2, on A10. *)
Lemma storage_off_turns_error_off_witness :
  mkLed (mkBase pyb_led_type) 2 pin_A10 ∈ MICROPY_HW_LED_MAPPING
  ∧ led_id (mkLed (mkBase pyb_led_type) 2 pin_A10) = PYB_LED_ERROR2
  ∧ led_id (mkLed (mkBase pyb_led_type) 2 pin_A10) = PYB_LED_STORAGE2
  ∧ pin_level
      (state_of (MICROPY_HW_LED_OFF pin_A10
                   (state_of (MICROPY_HW_LED_ON pin_A10 gpio_zero))))
      pin_A10
    = GPIO_PIN_SET.
Proof.
  assert (He : mkLed (mkBase pyb_led_type) 2 pin_A10
                 ∈ MICROPY_HW_LED_MAPPING) by by_eval.
  split; [exact He |]. split; [reflexivity |]. split; [reflexivity |].
  exact (proj2 (proj2 (storage_off_turns_error_off _ _ gpio_zero He He
                         (or_intror (conj eq_refl eq_refl))))).
Defined.

(** Released (1) to pressed (0). *)
Lemma switch_press_is_the_armed_edge_witness :
  exti_fires MICROPY_HW_USRSW_EXTI_MODE 1 0 = true
  ↔ switch_pressed 1 = false ∧ switch_pressed 0 = true.
Proof.
  exact (switch_press_is_the_armed_edge 1 0 (or_intror eq_refl)
           (or_introl eq_refl)).
Defined.
